(** * ChessBot / fuck.py: the binary-string column printer

    A shallow embedding of [print_binary_with_one_indices_reversed] and of
    the script entry point, together with the Python built-ins they call
    ([all], [in] on [str], format specs [^3], [str.join], [range],
    [enumerate], list indexing, [print], [input], [str.strip]).

    - a Python [str] is a list of Unicode code points ([N]);
    - a Python [int] is a [Z];
    - the process is a [world] (what is left on standard input, what has
      been written to standard output, both as decoded text with ["\n"]
      line ends) threaded through an exception monad: an uncaught
      exception keeps what was printed before it. *)

From Stdlib Require Import List NArith ZArith Lia Bool Ascii String.
Import ListNotations.

Set Implicit Arguments.

(** ** Strings *)

Module PyStr.

Definition char := N.
Definition str := list char.

(** A Python string literal whose characters are all ASCII. *)
Definition lit (s : string) : str :=
  List.map N_of_ascii (list_ascii_of_string s).

Definition space : char := 32%N.
Definition newline : char := 10%N.

(** [len(s)] *)
Definition len (A : Type) (s : list A) : Z := Z.of_nat (List.length s).

(** [s == t] on strings *)
Fixpoint str_eqb (s t : str) : bool :=
  match s, t with
  | [], [] => true
  | c :: s', d :: t' => N.eqb c d && str_eqb s' t'
  | _, _ => false
  end.

(** [for bit in s]: iterating a string yields its one-character substrings. *)
Definition iter_str (s : str) : list str := List.map (fun c => [c]) s.

Fixpoint startswith (s prefix : str) : bool :=
  match prefix, s with
  | [], _ => true
  | p :: prefix', c :: s' => N.eqb p c && startswith s' prefix'
  | _ :: _, [] => false
  end.

(** [needle in hay]: the substring test of [str.__contains__]. *)
Fixpoint str_in (needle hay : str) : bool :=
  startswith hay needle ||
  match hay with
  | [] => false
  | _ :: hay' => str_in needle hay'
  end.

(** [s * n]: repetition; a count below one gives the empty string. *)
Definition str_mul (s : str) (n : Z) : str :=
  List.concat (List.repeat s (Z.to_nat n)).

(** [sep.join(parts)] *)
Fixpoint join (sep : str) (parts : list str) : str :=
  match parts with
  | [] => []
  | [p] => p
  | p :: rest => p ++ sep ++ join sep rest
  end.

(** [str.isspace] on one code point: the table of [_PyUnicode_IsWhitespace]. *)
Definition isspace (c : char) : bool :=
  ((9 <=? c) && (c <=? 13) || (28 <=? c) && (c <=? 32)
   || (c =? 133) || (c =? 160) || (c =? 5760)
   || (8192 <=? c) && (c <=? 8202)
   || (c =? 8232) || (c =? 8233) || (c =? 8239) || (c =? 8287)
   || (c =? 12288))%N.

Fixpoint lstrip (s : str) : str :=
  match s with
  | [] => []
  | c :: s' => if isspace c then lstrip s' else s
  end.

Definition rstrip (s : str) : str := List.rev (lstrip (List.rev s)).

(** [s.strip()] with no argument *)
Definition strip (s : str) : str := rstrip (lstrip s).

(** *** Decimal rendering of an [int] *)

Definition digit_char (d : N) : char := (48 + d)%N.

Fixpoint digits_fuel (fuel : nat) (n : N) : str :=
  match fuel with
  | O => []
  | S fuel' =>
      if (n <? 10)%N then [digit_char n]
      else digits_fuel fuel' (n / 10) ++ [digit_char (n mod 10)]
  end.

(** A number has no more decimal digits than binary ones, so its binary
    size (plus one, for zero) is fuel enough; see [digits_fuel_enough]. *)
Definition digits (n : N) : str :=
  digits_fuel (S (N.to_nat (N.size n))) n.

(** [str(x)] for an [int], which is also what an empty presentation type
    in a format spec renders. *)
Definition int_to_str (x : Z) : str :=
  if (x <? 0)%Z then 45%N :: digits (Z.to_N (- x)) else digits (Z.to_N x).

(** The value a string of decimal digits denotes. *)
Definition digits_value (s : str) : N :=
  List.fold_left (fun acc c => (10 * acc + (c - 48))%N) s 0%N.

(** *** Format specs

    [f"{v:^{width}}"]: CPython's [calc_padding] / [calc_number_widths].
    The field is never narrower than the rendered value, and of the
    padding the left side gets the rounded-down half. *)
Definition format_center (width : Z) (s : str) : str :=
  let nchars := len s in
  let n_total := Z.max nchars width in
  let n_lpadding := ((n_total - nchars) / 2)%Z in
  let n_rpadding := (n_total - nchars - n_lpadding)%Z in
  str_mul [space] n_lpadding ++ s ++ str_mul [space] n_rpadding.

Definition format_int_center (width : Z) (x : Z) : str :=
  format_center width (int_to_str x).

(** The lines of a text, each ended by a newline (a last line may lack it). *)
Fixpoint lines (s : str) : list str :=
  match s with
  | [] => []
  | c :: s' =>
      if (c =? newline)%N then [] :: lines s'
      else match lines s' with
           | [] => [[c]]
           | l :: ls => (c :: l) :: ls
           end
  end.

End PyStr.
Import PyStr.

(** ** Exceptions, pure computations that may raise, and the process *)

Inductive exn : Type :=
| IndexError
| ValueError
| EOFError.

Module Res.

Definition res (A : Type) : Type := (A + exn)%type.

Definition ret (A : Type) (a : A) : res A := inl a.
Definition raise (A : Type) (e : exn) : res A := inr e.
Arguments raise {A} e.
Definition bind (A B : Type) (m : res A) (k : A -> res B) : res B :=
  match m with
  | inl a => k a
  | inr e => inr e
  end.

(** A generator expression consumed left to right: the first element that
    raises ends the loop. *)
Fixpoint mapM (A B : Type) (f : A -> res B) (l : list A) : res (list B) :=
  match l with
  | [] => ret []
  | a :: l' =>
      bind (f a) (fun b => bind (mapM f l') (fun bs => ret (b :: bs)))
  end.

End Res.

Record world : Type := World { stdin : str; stdout : str }.

Module IO.

Definition io (A : Type) : Type := world -> Res.res A * world.

Definition ret (A : Type) (a : A) : io A := fun w => (inl a, w).
Definition bind (A B : Type) (m : io A) (k : A -> io B) : io B :=
  fun w =>
    match m w with
    | (inl a, w') => k a w'
    | (inr e, w') => (inr e, w')
    end.
Definition lift (A : Type) (r : Res.res A) : io A := fun w => (r, w).

(** [print(s)]: the text and a newline go to standard output. *)
Definition print (s : str) : io unit :=
  fun w => (inl tt, World (stdin w) (stdout w ++ s ++ [newline])).

(** Split the pending input at its first newline. *)
Fixpoint read_line (s : str) : str * str :=
  match s with
  | [] => ([], [])
  | c :: s' =>
      if (c =? newline)%N then ([], s')
      else let '(l, rest) := read_line s' in (c :: l, rest)
  end.

(** [input(prompt)]: the prompt goes to standard output without a newline,
    one line is consumed and returned without its newline; end of input
    with nothing read raises [EOFError]. *)
Definition input (prompt : str) : io str :=
  fun w =>
    let out := stdout w ++ prompt in
    match stdin w with
    | [] => (inr EOFError, World [] out)
    | _ => let '(l, rest) := read_line (stdin w) in (inl l, World rest out)
    end.

End IO.

Declare Scope io_scope.
Delimit Scope io_scope with io.
Notation "x <- m ;; k" := (IO.bind m (fun x => k))
  (at level 61, m at next level, right associativity) : io_scope.
Notation "m ;; k" := (IO.bind m (fun _ => k))
  (at level 61, right associativity) : io_scope.

Declare Scope res_scope.
Delimit Scope res_scope with res.
Notation "x <- m ;; k" := (Res.bind m (fun x => k))
  (at level 61, m at next level, right associativity) : res_scope.

(** ** Sequences *)

Module PySeq.

(** [all(iterable)] *)
Definition all (l : list bool) : bool := List.forallb (fun b => b) l.

(** [len(range(start, stop, step))], as [compute_range_length] has it. *)
Definition range_length (start stop step : Z) : Z :=
  if (0 <? step)%Z then
    if (start <? stop)%Z then ((stop - start - 1) / step + 1)%Z else 0%Z
  else
    if (stop <? start)%Z then ((start - stop - 1) / (- step) + 1)%Z else 0%Z.

(** [list(range(start, stop, step))]; a zero step raises [ValueError]. *)
Definition range (start stop step : Z) : Res.res (list Z) :=
  if (step =? 0)%Z then Res.raise ValueError
  else
    Res.ret
      (List.map (fun k => (start + Z.of_nat k * step)%Z)
         (List.seq 0 (Z.to_nat (range_length start stop step)))).

(** [enumerate(l, start)] *)
Fixpoint enumerate_from (A : Type) (start : Z) (l : list A) : list (Z * A) :=
  match l with
  | [] => []
  | a :: l' => (start, a) :: enumerate_from (start + 1) l'
  end.

Definition enumerate (A : Type) (l : list A) : list (Z * A) :=
  enumerate_from 0 l.

(** [l[i]]: a negative index counts from the end; out of range raises. *)
Definition getitem (A : Type) (l : list A) (i : Z) : Res.res A :=
  let j := if (i <? 0)%Z then (i + len l)%Z else i in
  if (j <? 0)%Z then Res.raise IndexError
  else
    match List.nth_error l (Z.to_nat j) with
    | Some a => Res.ret a
    | None => Res.raise IndexError
    end.

End PySeq.
Import PySeq.

(** ** The program *)

Definition error_message : str :=
  lit "Error: Input must be a binary string containing only '0' and '1'.".

(** The validation test of the first [if], before its [not]. *)
Definition is_binary_string (binary_string : str) : bool :=
  all (List.map (fun bit => str_in bit (lit "01")) (iter_str binary_string)).

Definition print_binary_with_one_indices_reversed (binary_string : str)
  : IO.io unit :=
  (if negb (is_binary_string binary_string) then
     IO.print error_message ;;
     IO.ret tt
   else
     let width := 3%Z in
     let bits_line :=
       join [] (List.map (fun bit => format_center width bit)
                  (iter_str binary_string)) in
     IO.print bits_line ;;
     reversed_indices <- IO.lift (range (len binary_string - 1) (-1) (-1)) ;;
     indices_line <-
       IO.lift
         (parts <-
            Res.mapM
              (fun '(i, bit) =>
                 if str_eqb bit (lit "1") then
                   (x <- getitem reversed_indices i ;;
                    Res.ret (format_int_center width x))%res
                 else Res.ret (str_mul (lit " ") width))
              (enumerate (iter_str binary_string)) ;;
          Res.ret (join [] parts))%res ;;
     IO.print indices_line)%io.

Definition prompt : str := lit "Enter a binary string: ".

(** The [if __name__ == "__main__":] block. *)
Definition main : IO.io unit :=
  (binary_input <- (raw <- IO.input prompt ;; IO.ret (strip raw)) ;;
   print_binary_with_one_indices_reversed binary_input)%io.

(** What a run prints, started on an idle process. *)
Definition run (m : IO.io unit) (input_text : str) : Res.res unit * world :=
  m (World input_text []).

Definition printed (binary_string : str) : str :=
  stdout (snd (run (print_binary_with_one_indices_reversed binary_string) [])).

(** ** What the specification says

    These follow the words of the specification, not the code, and are
    what the program is compared with. *)

(** The two binary digits, as code points. *)
Definition binary_char (c : char) : Prop := c = 48%N \/ c = 49%N.

Definition binary_charb (c : char) : bool := ((c =? 48) || (c =? 49))%N.

(** Centred text in a field: [total_pad = width - len(value)],
    [left = total_pad // 2], [right = total_pad - left]. *)
Definition spec_center (width : nat) (value : str) : str :=
  let total_pad := (width - List.length value)%nat in
  let left := (total_pad / 2)%nat in
  let right := (total_pad - left)%nat in
  List.repeat space left ++ value ++ List.repeat space right.

(** Reversed index of position [i] in a string of length [n]. *)
Definition reversed_index (n i : nat) : nat := (n - 1 - i)%nat.

(** Line 1: every character centred in a column of 3. *)
Definition bits_line_spec (s : str) : str :=
  List.concat (List.map (fun c => spec_center 3 [c]) s).

(** The column under position [i]: the reversed index under a ['1'],
    three blanks otherwise. *)
Definition index_column (s : str) (i : nat) : str :=
  match List.nth_error s i with
  | Some c =>
      if (c =? 49)%N
      then spec_center 3 (digits (N.of_nat (reversed_index (List.length s) i)))
      else List.repeat space 3
  | None => []
  end.

(** Line 2: the columns of positions [0 .. N-1], in order. *)
Definition indices_line_spec (s : str) : str :=
  List.concat (List.map (index_column s) (List.seq 0 (List.length s))).

(** Column [i] of a rendered line whose columns are all 3 wide. *)
Definition column (i : nat) (line : str) : str :=
  List.firstn 3 (List.skipn (3 * i) line).

(** Whitespace that can surround the text on one input line. *)
Definition blank (c : char) : Prop := isspace c = true /\ c <> newline.

(** Any character [str.strip] removes. *)
Definition whitespace (c : char) : Prop := isspace c = true.

(** Reading a bits line back: the middle character of every column. *)
Fixpoint decode_bits (line : str) : str :=
  match line with
  | _ :: c :: _ :: rest => c :: decode_bits rest
  | _ => []
  end.


Example printed_101 :
  printed (lit "101") = lit " 1  0  1 " ++ [newline] ++ lit " 2     0 " ++ [newline].
Proof. vm_compute. reflexivity. Qed.

Example printed_abc : printed (lit "abc") = error_message ++ [newline].
Proof. vm_compute. reflexivity. Qed.

Example printed_12 :
  printed (lit "100000000001") =
  lit " 1  0  0  0  0  0  0  0  0  0  0  1 " ++ [newline] ++
  lit "11                                0 " ++ [newline].
Proof. vm_compute. reflexivity. Qed.

(** ** The validator *)

Section Validator.

Lemma binary_charb_spec c : binary_charb c = true <-> binary_char c.
Proof.
  unfold binary_charb, binary_char.
  rewrite orb_true_iff, !N.eqb_eq. tauto.
Qed.

(** On a one-character needle the substring test is a membership test. *)
Lemma str_in_one_char c : str_in [c] (lit "01") = binary_charb c.
Proof.
  unfold binary_charb. cbn.
  rewrite !andb_true_r, orb_false_r.
  rewrite (N.eqb_sym c 48), (N.eqb_sym c 49). reflexivity.
Qed.

Lemma is_binary_string_forallb s :
  is_binary_string s = forallb binary_charb s.
Proof.
  unfold is_binary_string, all, iter_str.
  induction s as [|c s IH]; [reflexivity|].
  cbn [List.map forallb]. rewrite IH, str_in_one_char. reflexivity.
Qed.

Lemma is_binary_string_Forall s :
  is_binary_string s = true <-> Forall binary_char s.
Proof.
  rewrite is_binary_string_forallb, forallb_forall, Forall_forall.
  split; intros H c Hc; apply binary_charb_spec, H, Hc.
Qed.

Lemma is_binary_string_false s :
  is_binary_string s = false <-> exists c, In c s /\ ~ binary_char c.
Proof.
  rewrite is_binary_string_forallb. split.
  - induction s as [|c s IH]; cbn; [discriminate|].
    destruct (binary_charb c) eqn:E; cbn.
    + intros H. destruct (IH H) as (d & Hd & Hn). exists d. tauto.
    + intros _. exists c. split; [tauto|].
      rewrite <- binary_charb_spec, E. discriminate.
  - intros (c & Hc & Hn).
    destruct (forallb binary_charb s) eqn:E; [|reflexivity].
    rewrite forallb_forall in E. apply E in Hc.
    apply binary_charb_spec in Hc. contradiction.
Qed.

Lemma binary_char_not_space c : binary_char c -> isspace c = false.
Proof. intros [-> | ->]; reflexivity. Qed.

Lemma binary_char_not_newline c : binary_char c -> c <> newline.
Proof. intros [-> | ->]; discriminate. Qed.

End Validator.

(** ** Decimal digits *)

Section Digits.

Local Open Scope N_scope.

Lemma div10_lt_pow2 n k : n < 2 ^ N.succ k -> n / 10 < 2 ^ k.
Proof.
  rewrite N.pow_succ_r'. intros H.
  apply N.Div0.div_lt_upper_bound. lia.
Qed.

(** Any fuel above the binary size gives the same digits. *)
Lemma digits_fuel_enough f1 :
  forall f2 n,
    n < 2 ^ N.of_nat f1 -> n < 2 ^ N.of_nat f2 ->
    digits_fuel (S f1) n = digits_fuel (S f2) n.
Proof.
  induction f1 as [|f1 IH]; intros f2 n H1 H2;
    cbn [digits_fuel]; destruct (n <? 10) eqn:E; try reflexivity;
    apply N.ltb_ge in E.
  - cbn in H1. lia.
  - destruct f2 as [|f2]; [cbn in H2; lia|].
    rewrite Nat2N.inj_succ in H1, H2.
    f_equal. apply IH; apply div10_lt_pow2; assumption.
Qed.

Lemma digits_small n : n < 10 -> digits n = [digit_char n].
Proof.
  intros H. unfold digits. cbn [digits_fuel].
  apply N.ltb_lt in H. rewrite H. reflexivity.
Qed.

Lemma digits_step n :
  10 <= n -> digits n = digits (n / 10) ++ [digit_char (n mod 10)].
Proof.
  intros H. unfold digits at 1. cbn [digits_fuel].
  destruct (n <? 10) eqn:E; [apply N.ltb_lt in E; lia|].
  f_equal.
  pose proof (N.size_gt n) as Hn.
  destruct (N.to_nat (N.size n)) as [|k] eqn:Ek.
  - assert (N.size n = 0) as Hz by lia. rewrite Hz in Hn. cbn in Hn. lia.
  - unfold digits. apply digits_fuel_enough.
    + apply div10_lt_pow2.
      replace (N.succ (N.of_nat k)) with (N.size n) by lia. exact Hn.
    + rewrite N2Nat.id. apply N.size_gt.
Qed.

Lemma digits_value_snoc s c :
  digits_value (s ++ [c]) = 10 * digits_value s + (c - 48).
Proof. unfold digits_value. rewrite fold_left_app. reflexivity. Qed.

(** The rendering is the decimal numeral of the number. *)
Lemma digits_value_digits n : digits_value (digits n) = n.
Proof.
  induction n as [n IH] using (well_founded_induction N.lt_wf_0).
  destruct (N.lt_ge_cases n 10) as [H | H].
  - rewrite digits_small by assumption. unfold digits_value, digit_char.
    cbn [fold_left]. lia.
  - rewrite digits_step, digits_value_snoc by assumption.
    rewrite IH by (apply N.Div0.div_lt_upper_bound; lia).
    unfold digit_char.
    rewrite (N.add_comm 48), N.add_sub.
    symmetry. apply N.Div0.div_mod.
Qed.

Lemma digits_are_digits n c :
  In c (digits n) -> 48 <= c <= 57.
Proof.
  revert c.
  induction n as [n IH] using (well_founded_induction N.lt_wf_0).
  intros c. destruct (N.lt_ge_cases n 10) as [H | H].
  - rewrite digits_small by assumption. unfold digit_char.
    intros [<- | []]. lia.
  - rewrite digits_step by assumption. rewrite in_app_iff.
    intros [Hc | [<- | []]].
    + apply (IH (n / 10)); [apply N.Div0.div_lt_upper_bound; lia | exact Hc].
    + unfold digit_char.
      assert (n mod 10 < 10) as Hm by (apply N.mod_upper_bound; lia).
      revert Hm. generalize (n mod 10). intros r Hr. lia.
Qed.

Lemma digits_length_pos n : (1 <= List.length (digits n))%nat.
Proof.
  destruct (N.lt_ge_cases n 10) as [H | H].
  - rewrite digits_small by assumption. cbn. lia.
  - rewrite digits_step, length_app by assumption. cbn. lia.
Qed.

Lemma digits_two n :
  10 <= n < 100 -> digits n = [digit_char (n / 10); digit_char (n mod 10)].
Proof.
  intros [H1 H2]. rewrite digits_step by assumption.
  rewrite digits_small by (apply N.Div0.div_lt_upper_bound; lia).
  reflexivity.
Qed.

Lemma digits_three n :
  100 <= n < 1000 ->
  digits n =
  [digit_char (n / 100); digit_char (n / 10 mod 10); digit_char (n mod 10)].
Proof.
  intros [H1 H2]. rewrite digits_step by lia.
  rewrite digits_two.
  - rewrite N.Div0.div_div. reflexivity.
  - split; [apply N.div_le_lower_bound; lia
           | apply N.Div0.div_lt_upper_bound; lia].
Qed.

Lemma digits_length_le3 n : n < 1000 -> (List.length (digits n) <= 3)%nat.
Proof.
  intros H.
  destruct (N.lt_ge_cases n 10); [rewrite digits_small by lia; cbn; lia|].
  destruct (N.lt_ge_cases n 100); [rewrite digits_two by lia; cbn; lia|].
  rewrite digits_three by lia. cbn. lia.
Qed.

Lemma digits_length_ge4 n : 1000 <= n -> (4 <= List.length (digits n))%nat.
Proof.
  intros H.
  assert (100 <= n / 10) by (apply N.div_le_lower_bound; lia).
  assert (10 <= n / 10 / 10) by (apply N.div_le_lower_bound; lia).
  rewrite (digits_step (n := n)) by lia.
  rewrite (digits_step (n := n / 10)) by lia.
  rewrite (digits_step (n := n / 10 / 10)) by lia.
  rewrite !length_app. cbn [List.length].
  pose proof (digits_length_pos (n / 10 / 10 / 10)). lia.
Qed.

End Digits.

(** ** Format specs *)

Section Formatting.

Lemma str_mul_space n : str_mul [space] n = List.repeat space (Z.to_nat n).
Proof.
  unfold str_mul. induction (Z.to_nat n) as [|k IH]; [reflexivity|].
  cbn [List.repeat List.concat]. rewrite IH. reflexivity.
Qed.

(** Python's [^width] is the specification's centring rule. *)
Lemma format_center_spec (width : nat) (s : str) :
  format_center (Z.of_nat width) s = spec_center width s.
Proof.
  unfold format_center, spec_center, len.
  rewrite !str_mul_space.
  set (n := List.length s).
  assert (Z.max (Z.of_nat n) (Z.of_nat width) - Z.of_nat n
          = Z.of_nat (width - n))%Z as -> by lia.
  assert (Z.of_nat (width - n) / 2 = Z.of_nat ((width - n) / 2))%Z as ->
    by (rewrite Nat2Z.inj_div; reflexivity).
  rewrite <- Nat2Z.inj_sub by (apply Nat.Div0.div_le_upper_bound; lia).
  rewrite !Nat2Z.id. reflexivity.
Qed.

Lemma format_center_3 s : format_center 3 s = spec_center 3 s.
Proof. exact (format_center_spec 3 s). Qed.

Lemma spec_center_length width v :
  List.length (spec_center width v) = Nat.max width (List.length v).
Proof.
  unfold spec_center. rewrite !length_app, !repeat_length.
  assert ((width - List.length v) / 2 <= width - List.length v)%nat
    by (apply Nat.Div0.div_le_upper_bound; lia).
  lia.
Qed.

Lemma spec_center_In width v c :
  In c (spec_center width v) -> c = space \/ In c v.
Proof.
  unfold spec_center. rewrite !in_app_iff.
  intros [H | [H | H]]; [left | right | left]; try assumption;
    eapply repeat_spec; eassumption.
Qed.

Lemma spec_center_one c : spec_center 3 [c] = [space; c; space].
Proof. reflexivity. Qed.

Lemma spec_center_two a b : spec_center 3 [a; b] = [a; b; space].
Proof. reflexivity. Qed.

Lemma spec_center_three a b c : spec_center 3 [a; b; c] = [a; b; c].
Proof. reflexivity. Qed.

Lemma spec_center_wide v :
  (3 <= List.length v)%nat -> spec_center 3 v = v.
Proof.
  intros H. unfold spec_center.
  replace (3 - List.length v)%nat with 0%nat by lia.
  cbn. apply app_nil_r.
Qed.

(** An [int] that is not negative renders as its digits. *)
Lemma int_to_str_nat (n : nat) : int_to_str (Z.of_nat n) = digits (N.of_nat n).
Proof.
  unfold int_to_str.
  destruct (Z.of_nat n <? 0)%Z eqn:E; [apply Z.ltb_lt in E; lia|].
  f_equal. lia.
Qed.

Lemma join_empty_sep parts : join [] parts = List.concat parts.
Proof.
  induction parts as [|p [|q rest] IH]; [reflexivity | cbn; now rewrite app_nil_r |].
  change (join [] (p :: q :: rest)) with (p ++ [] ++ join [] (q :: rest)).
  rewrite IH. reflexivity.
Qed.

End Formatting.

(** ** The reversed indices *)

Section ReversedIndices.

Lemma range_length_down (n : nat) :
  range_length (Z.of_nat n - 1) (-1) (-1) = Z.of_nat n.
Proof.
  unfold range_length. cbn [Z.ltb Z.compare Z.opp].
  destruct (-1 <? Z.of_nat n - 1)%Z eqn:E.
  - apply Z.ltb_lt in E. rewrite Z.div_1_r. lia.
  - apply Z.ltb_ge in E. lia.
Qed.

(** [list(range(N-1, -1, -1))] is [N-1, N-2, ..., 0]. *)
Lemma range_down (n : nat) :
  range (Z.of_nat n - 1) (-1) (-1) =
  inl (List.map (fun k => Z.of_nat (reversed_index n k)) (List.seq 0 n)).
Proof.
  unfold range. cbn [Z.eqb]. unfold Res.ret.
  rewrite range_length_down, Nat2Z.id. f_equal.
  apply map_ext_in. intros k Hk. apply in_seq in Hk.
  unfold reversed_index. lia.
Qed.

(** Indexing it inside its bounds never raises. *)
Lemma getitem_reversed (n i : nat) :
  (i < n)%nat ->
  getitem (List.map (fun k => Z.of_nat (reversed_index n k)) (List.seq 0 n))
    (Z.of_nat i)
  = inl (Z.of_nat (reversed_index n i)).
Proof.
  intros H. unfold getitem.
  destruct (Z.of_nat i <? 0)%Z eqn:E; [apply Z.ltb_lt in E; lia|].
  rewrite E, Nat2Z.id.
  rewrite nth_error_map, nth_error_seq.
  apply Nat.ltb_lt in H. rewrite H. reflexivity.
Qed.

End ReversedIndices.

(** ** The two lines *)

Section Rendering.

Lemma bits_line_code s :
  join [] (List.map (fun bit => format_center 3 bit) (iter_str s))
  = bits_line_spec s.
Proof.
  rewrite join_empty_sep. unfold bits_line_spec, iter_str.
  rewrite map_map. apply f_equal, map_ext. intros c.
  apply format_center_3.
Qed.

(** The generator of the indices line, started at position [length pre]. *)
Lemma indices_columns_code (s : str) :
  forall t pre,
    s = pre ++ t ->
    Res.mapM
      (fun '(i, bit) =>
         if str_eqb bit (lit "1") then
           (x <- getitem
                   (List.map (fun k => Z.of_nat (reversed_index (List.length s) k))
                      (List.seq 0 (List.length s))) i ;;
            Res.ret (format_int_center 3 x))%res
         else Res.ret (str_mul (lit " ") 3))
      (enumerate_from (Z.of_nat (List.length pre)) (iter_str t))
    = inl (List.map (index_column s) (List.seq (List.length pre) (List.length t))).
Proof.
  induction t as [|c t IH]; intros pre Hs; [reflexivity|].
  cbn [iter_str List.map enumerate_from Res.mapM List.length List.seq].
  fold (iter_str t).
  assert (List.length pre < List.length s)%nat as Hlt
    by (rewrite Hs, length_app; cbn; lia).
  assert (index_column s (List.length pre) =
          if (c =? 49)%N
          then spec_center 3
                 (digits (N.of_nat (reversed_index (List.length s) (List.length pre))))
          else List.repeat space 3) as Hcol.
  { unfold index_column. rewrite Hs at 1.
    rewrite nth_error_app2 by lia. rewrite Nat.sub_diag. reflexivity. }
  specialize (IH (pre ++ [c])).
  rewrite length_app in IH. cbn [List.length] in IH.
  replace (Z.of_nat (List.length pre + 1)) with (Z.of_nat (List.length pre) + 1)%Z
    in IH by lia.
  rewrite Nat.add_1_r in IH.
  rewrite IH by (rewrite Hs, <- app_assoc; reflexivity).
  rewrite Hcol.
  change (str_eqb [c] (lit "1")) with ((c =? 49)%N && true).
  rewrite andb_true_r.
  destruct (c =? 49)%N.
  - rewrite getitem_reversed by assumption.
    cbn [Res.bind Res.ret]. unfold format_int_center.
    rewrite int_to_str_nat, format_center_3. reflexivity.
  - reflexivity.
Qed.

Lemma indices_line_code (s : str) :
  (parts <-
     Res.mapM
       (fun '(i, bit) =>
          if str_eqb bit (lit "1") then
            (x <- getitem
                    (List.map (fun k => Z.of_nat (reversed_index (List.length s) k))
                       (List.seq 0 (List.length s))) i ;;
             Res.ret (format_int_center 3 x))%res
          else Res.ret (str_mul (lit " ") 3))
       (enumerate (iter_str s)) ;;
   Res.ret (join [] parts))%res
  = inl (indices_line_spec s).
Proof.
  unfold enumerate.
  pose proof (indices_columns_code (s := s) s [] eq_refl) as H.
  change (Z.of_nat (List.length (@nil char))) with 0%Z in H.
  rewrite H. cbn [Res.bind Res.ret]. rewrite join_empty_sep. reflexivity.
Qed.

(** A valid string: two [print]s, no exception, input untouched. *)
Lemma run_valid (s : str) (w : world) :
  is_binary_string s = true ->
  print_binary_with_one_indices_reversed s w =
  (inl tt,
   World (stdin w)
     ((stdout w ++ bits_line_spec s ++ [newline])
        ++ indices_line_spec s ++ [newline])).
Proof.
  intros Hv. unfold print_binary_with_one_indices_reversed.
  rewrite Hv. cbn [negb].
  unfold IO.bind at 1. unfold IO.print at 1.
  unfold IO.bind at 1. unfold IO.lift at 1.
  unfold len. rewrite range_down.
  unfold IO.bind at 1. unfold IO.lift at 1.
  rewrite indices_line_code.
  unfold IO.print. cbn [stdin stdout].
  rewrite bits_line_code. reflexivity.
Qed.

(** An invalid string: the message, and nothing else. *)
Lemma run_invalid (s : str) (w : world) :
  is_binary_string s = false ->
  print_binary_with_one_indices_reversed s w =
  (inl tt, World (stdin w) (stdout w ++ error_message ++ [newline])).
Proof.
  intros Hv. unfold print_binary_with_one_indices_reversed.
  rewrite Hv. reflexivity.
Qed.

Lemma printed_valid s :
  is_binary_string s = true ->
  printed s = bits_line_spec s ++ newline :: indices_line_spec s ++ [newline].
Proof.
  intros Hv. unfold printed, run. rewrite run_valid by assumption.
  cbn [snd stdout app]. rewrite <- app_assoc. reflexivity.
Qed.

Lemma printed_invalid s :
  is_binary_string s = false -> printed s = error_message ++ [newline].
Proof.
  intros Hv. unfold printed, run. rewrite run_invalid by assumption.
  reflexivity.
Qed.

End Rendering.

(** ** Lines and columns of the output *)

Section Layout.

Lemma lines_app_newline l rest :
  ~ In newline l -> lines (l ++ newline :: rest) = l :: lines rest.
Proof.
  induction l as [|c l IH]; intros Hn.
  - cbn [app lines]. rewrite N.eqb_refl. reflexivity.
  - cbn [app lines].
    destruct (c =? newline)%N eqn:E.
    + apply N.eqb_eq in E. subst c. exfalso. apply Hn. left. reflexivity.
    + rewrite IH by (intros H; apply Hn; right; exact H). reflexivity.
Qed.

Lemma lines_two l1 l2 :
  ~ In newline l1 -> ~ In newline l2 ->
  lines (l1 ++ newline :: l2 ++ [newline]) = [l1; l2].
Proof.
  intros H1 H2.
  rewrite lines_app_newline by assumption.
  rewrite lines_app_newline by assumption. reflexivity.
Qed.

Lemma bits_line_no_newline s :
  Forall binary_char s -> ~ In newline (bits_line_spec s).
Proof.
  intros Hs Hin. unfold bits_line_spec in Hin.
  apply in_concat in Hin. destruct Hin as (col & Hcol & Hin).
  apply in_map_iff in Hcol. destruct Hcol as (c & <- & Hc).
  apply spec_center_In in Hin. destruct Hin as [Hin | [Hin | []]].
  - discriminate.
  - rewrite Forall_forall in Hs. apply Hs in Hc.
    apply binary_char_not_newline in Hc. congruence.
Qed.

Lemma index_column_chars s i c :
  In c (index_column s i) -> c = space \/ (48 <= c <= 57)%N.
Proof.
  unfold index_column.
  destruct (nth_error s i) as [b|]; [|intros []].
  destruct (b =? 49)%N.
  - intros H. apply spec_center_In in H. destruct H as [H | H]; [left; exact H|].
    right. eapply digits_are_digits. exact H.
  - intros H. left. eapply repeat_spec. exact H.
Qed.

Lemma indices_line_no_newline s : ~ In newline (indices_line_spec s).
Proof.
  intros Hin. unfold indices_line_spec in Hin.
  apply in_concat in Hin. destruct Hin as (col & Hcol & Hin).
  apply in_map_iff in Hcol. destruct Hcol as (i & <- & _).
  apply index_column_chars in Hin. unfold newline, space in Hin.
  destruct Hin as [Hin | Hin]; [discriminate | lia].
Qed.

(** The output of a valid run, seen as lines. *)
Lemma lines_printed_valid s :
  Forall binary_char s ->
  lines (printed s) = [bits_line_spec s; indices_line_spec s].
Proof.
  intros Hs.
  rewrite printed_valid by (apply is_binary_string_Forall; exact Hs).
  apply lines_two.
  - apply bits_line_no_newline; exact Hs.
  - apply indices_line_no_newline.
Qed.

Lemma concat_map_length_const (A : Type) (f : A -> str) (k : nat) (l : list A) :
  (forall x, In x l -> List.length (f x) = k) ->
  List.length (List.concat (List.map f l)) = (k * List.length l)%nat.
Proof.
  induction l as [|a l IH]; intros H; cbn [List.map List.concat List.length].
  - lia.
  - rewrite length_app.
    rewrite IH by (intros x Hx; apply H; right; exact Hx).
    rewrite (H a (or_introl eq_refl)). lia.
Qed.

Lemma concat_map_length_ge (A : Type) (f : A -> str) (k : nat) (l : list A) :
  (forall x, In x l -> (k <= List.length (f x))%nat) ->
  (k * List.length l <= List.length (List.concat (List.map f l)))%nat.
Proof.
  induction l as [|a l IH]; intros H; cbn [List.map List.concat List.length].
  - lia.
  - rewrite length_app.
    specialize (IH (fun x Hx => H x (or_intror Hx))).
    specialize (H a (or_introl eq_refl)). lia.
Qed.

Lemma concat_map_length_gt (A : Type) (f : A -> str) (k : nat) (l : list A) (a : A) :
  (forall x, In x l -> (k <= List.length (f x))%nat) ->
  In a l -> (k < List.length (f a))%nat ->
  (k * List.length l < List.length (List.concat (List.map f l)))%nat.
Proof.
  induction l as [|b l IH]; intros H Ha Hlt; [destruct Ha|].
  cbn [List.map List.concat List.length]. rewrite length_app.
  destruct Ha as [-> | Ha].
  - pose proof (@concat_map_length_ge _ f k l (fun x Hx => H x (or_intror Hx))).
    lia.
  - specialize (IH (fun x Hx => H x (or_intror Hx)) Ha Hlt).
    specialize (H b (or_introl eq_refl)). lia.
Qed.

Lemma bits_line_length s :
  List.length (bits_line_spec s) = (3 * List.length s)%nat.
Proof.
  unfold bits_line_spec. apply concat_map_length_const.
  intros c _. reflexivity.
Qed.

Lemma index_column_length_ge s i :
  (i < List.length s)%nat -> (3 <= List.length (index_column s i))%nat.
Proof.
  intros Hi. unfold index_column.
  destruct (nth_error s i) as [c|] eqn:E;
    [|apply nth_error_None in E; lia].
  destruct (c =? 49)%N; [rewrite spec_center_length; lia | cbn; lia].
Qed.

Lemma index_column_length_3 s i :
  (i < List.length s)%nat -> (reversed_index (List.length s) i < 1000)%nat ->
  List.length (index_column s i) = 3%nat.
Proof.
  intros Hi Hr. unfold index_column.
  destruct (nth_error s i) as [c|] eqn:E;
    [|apply nth_error_None in E; lia].
  destruct (c =? 49)%N; [|reflexivity].
  rewrite spec_center_length.
  pose proof (digits_length_le3 (n := N.of_nat (reversed_index (List.length s) i))
                ltac:(lia)).
  lia.
Qed.

Lemma index_column_length_wide (s : str) i :
  nth_error s i = Some 49%N ->
  (1000 <= reversed_index (List.length s) i)%nat ->
  (4 <= List.length (index_column s i))%nat.
Proof.
  intros E Hr. unfold index_column. rewrite E. cbn [N.eqb Pos.eqb].
  rewrite spec_center_length.
  pose proof (digits_length_ge4 (n := N.of_nat (reversed_index (List.length s) i))
                ltac:(lia)).
  lia.
Qed.

Lemma indices_line_length s :
  (List.length s <= 1000)%nat ->
  List.length (indices_line_spec s) = (3 * List.length s)%nat.
Proof.
  intros Hn. unfold indices_line_spec.
  rewrite concat_map_length_const with (k := 3%nat).
  - rewrite length_seq. reflexivity.
  - intros i Hi. apply in_seq in Hi.
    apply index_column_length_3; unfold reversed_index; lia.
Qed.

Lemma column_concat (cols : list str) :
  (forall col, In col cols -> List.length col = 3%nat) ->
  forall i, column i (List.concat cols) = List.nth i cols [].
Proof.
  unfold column.
  induction cols as [|col cols IH]; intros H i.
  - destruct i; cbn [List.concat List.nth]; now rewrite skipn_nil.
  - pose proof (H col (or_introl eq_refl)) as Hc.
    cbn [List.concat]. destruct i as [|i].
    + rewrite Nat.mul_0_r. cbn [skipn List.nth].
      rewrite firstn_app, Hc, Nat.sub_diag, firstn_O, app_nil_r.
      apply firstn_all2. lia.
    + cbn [List.nth]. rewrite <- IH by (intros; apply H; right; assumption).
      f_equal. rewrite skipn_app, Hc.
      rewrite skipn_all2 by lia.
      replace (3 * S i - 3)%nat with (3 * i)%nat by lia. reflexivity.
Qed.

Lemma column_indices_line s i :
  (List.length s <= 1000)%nat -> (i < List.length s)%nat ->
  column i (indices_line_spec s) = index_column s i.
Proof.
  intros Hn Hi. unfold indices_line_spec.
  rewrite column_concat.
  - rewrite (nth_indep _ [] (index_column s 0)) by (rewrite length_map, length_seq; lia).
    rewrite map_nth, seq_nth by lia. reflexivity.
  - intros col Hcol. apply in_map_iff in Hcol.
    destruct Hcol as (k & <- & Hk). apply in_seq in Hk.
    apply index_column_length_3; unfold reversed_index; lia.
Qed.

End Layout.

(** ** The entry point *)

Section EntryPoint.

Lemma lstrip_app_blank pre x :
  Forall blank pre -> lstrip (pre ++ x) = lstrip x.
Proof.
  induction 1 as [|c pre [Hc _] _ IH]; [reflexivity|].
  cbn [app lstrip]. rewrite Hc. exact IH.
Qed.

Lemma lstrip_binary_head s x :
  Forall binary_char s -> s <> [] -> lstrip (s ++ x) = s ++ x.
Proof.
  intros Hs Hne. destruct s as [|c s]; [contradiction|].
  apply Forall_inv in Hs. apply binary_char_not_space in Hs.
  cbn [app lstrip]. rewrite Hs. reflexivity.
Qed.

(** Stripping leaves exactly the binary text between the blanks. *)
Lemma strip_core pre core post :
  Forall blank pre -> Forall binary_char core -> Forall blank post ->
  strip (pre ++ core ++ post) = core.
Proof.
  intros Hpre Hcore Hpost. unfold strip, rstrip.
  rewrite lstrip_app_blank by assumption.
  destruct core as [|c core].
  - cbn [app]. rewrite <- (app_nil_r post) at 1.
    rewrite lstrip_app_blank by assumption. reflexivity.
  - rewrite lstrip_binary_head by (assumption || discriminate).
    rewrite rev_app_distr.
    rewrite lstrip_app_blank by (apply Forall_rev; assumption).
    rewrite <- (app_nil_r (rev (c :: core))).
    rewrite lstrip_binary_head.
    + rewrite app_nil_r. apply rev_involutive.
    + apply Forall_rev. assumption.
    + intros E. apply (f_equal (@List.length _)) in E.
      rewrite length_rev in E. discriminate.
Qed.

Lemma read_line_app raw rest :
  ~ In newline raw -> IO.read_line (raw ++ newline :: rest) = (raw, rest).
Proof.
  induction raw as [|c raw IH]; intros Hn; cbn [app IO.read_line].
  - rewrite N.eqb_refl. reflexivity.
  - destruct (c =? newline)%N eqn:E.
    + apply N.eqb_eq in E. subst c. exfalso. apply Hn. left. reflexivity.
    + rewrite IH by (intros H; apply Hn; right; exact H). reflexivity.
Qed.

Lemma input_one_line p raw rest out :
  ~ In newline raw ->
  IO.input p (World (raw ++ newline :: rest) out)
  = (inl raw, World rest (out ++ p)).
Proof.
  intros Hn. unfold IO.input. cbn [stdin stdout].
  rewrite read_line_app by assumption.
  destruct raw; reflexivity.
Qed.

Lemma main_one_line raw rest out :
  ~ In newline raw ->
  main (World (raw ++ newline :: rest) out)
  = print_binary_with_one_indices_reversed (strip raw)
      (World rest (out ++ prompt)).
Proof.
  intros Hn. unfold main.
  unfold IO.bind at 1. unfold IO.bind at 1.
  rewrite input_one_line by assumption. reflexivity.
Qed.

Lemma blank_no_newline l : Forall blank l -> ~ In newline l.
Proof.
  intros H Hin. rewrite Forall_forall in H.
  destruct (H _ Hin) as [_ Hne]. apply Hne. reflexivity.
Qed.

Lemma binary_no_newline l : Forall binary_char l -> ~ In newline l.
Proof.
  intros H Hin. rewrite Forall_forall in H.
  apply (binary_char_not_newline (H _ Hin)). reflexivity.
Qed.

End EntryPoint.

(** ** Properties of the printer *)

(** Closes [Forall binary_char s] on a literal [s]. *)
Ltac all_binary :=
  cbv [lit List.map list_ascii_of_string N_of_ascii N_of_digits];
  repeat (apply Forall_cons; [first [left; reflexivity | right; reflexivity]|]);
  apply Forall_nil.

(** C1. For a string of ['0'] and ['1'] of length N, the second printed
    line is the concatenation, for i = 0 .. N-1 in order, of the decimal
    rendering of N-1-i centred in a field of 3 where the character at i is
    ['1'], and of three spaces where it is ['0']. *)
Theorem indices_line_is_reversed_indices (s : str) :
  Forall binary_char s ->
  List.nth_error (lines (printed s)) 1 = Some (indices_line_spec s) /\
  (forall i, (i < List.length s)%nat ->
             digits_value (digits (N.of_nat (reversed_index (List.length s) i)))
             = N.of_nat (List.length s - 1 - i)).
Proof.
  intros Hs. split.
  - rewrite lines_printed_valid by exact Hs. reflexivity.
  - intros i _. apply digits_value_digits.
Qed.

Lemma indices_line_is_reversed_indices_witness :
  Forall binary_char (lit "1101") /\
  List.nth_error (lines (printed (lit "1101"))) 1 = Some (lit " 3  2     0 ").
Proof.
  assert (Forall binary_char (lit "1101")) as H by all_binary.
  split; [exact H|].
  rewrite (proj1 (indices_line_is_reversed_indices H)).
  vm_compute. reflexivity.
Defined.

(** C2. For a string of ['0'] and ['1'], the first printed line is the
    concatenation, in the original order, of each character centred in a
    field of 3, with nothing between the fields; it comes before the
    indices line and is printed whole, trailing blanks included. *)
Theorem bits_line_is_first (s : str) :
  Forall binary_char s ->
  List.nth_error (lines (printed s)) 0 = Some (bits_line_spec s) /\
  printed s = bits_line_spec s ++ newline :: indices_line_spec s ++ [newline] /\
  List.length (bits_line_spec s) = (3 * List.length s)%nat /\
  (s <> [] -> List.last (bits_line_spec s) newline = space).
Proof.
  intros Hs. repeat split.
  - rewrite lines_printed_valid by exact Hs. reflexivity.
  - apply printed_valid, is_binary_string_Forall, Hs.
  - apply bits_line_length.
  - intros Hne. destruct (exists_last Hne) as (s' & c & ->).
    unfold bits_line_spec.
    rewrite map_app, concat_app. cbn [List.map List.concat].
    rewrite spec_center_one, app_nil_r.
    change [space; c; space] with ([space; c] ++ [space]).
    rewrite app_assoc. apply last_last.
Qed.

Lemma bits_line_is_first_witness :
  List.nth_error (lines (printed (lit "101"))) 0 = Some (lit " 1  0  1 ").
Proof.
  assert (Forall binary_char (lit "101")) as H by all_binary.
  rewrite (proj1 (bits_line_is_first H)).
  vm_compute. reflexivity.
Defined.

(** C3. Validation succeeds exactly when every character is ['0'] or
    ['1']: the empty string passes, and one character outside the two,
    non-ASCII ones included, makes it fail. *)
Theorem validation_iff_all_binary (s : str) :
  (is_binary_string s = true <-> Forall binary_char s) /\
  (s = [] -> is_binary_string s = true) /\
  (forall c, In c s -> c <> 48%N -> c <> 49%N -> is_binary_string s = false) /\
  (forall c, In c s -> (128 <= c)%N -> is_binary_string s = false).
Proof.
  split; [apply is_binary_string_Forall|].
  split; [intros ->; reflexivity|].
  split.
  - intros c Hc H0 H1. apply is_binary_string_false.
    exists c. split; [exact Hc|]. intros [E | E]; contradiction.
  - intros c Hc Hhi. apply is_binary_string_false.
    exists c. split; [exact Hc|]. intros [E | E]; subst c; lia.
Qed.

Lemma validation_iff_all_binary_witness :
  is_binary_string [] = true /\
  is_binary_string (lit "0110") = true /\
  is_binary_string (lit "01a") = false /\
  is_binary_string [49; 233; 48]%N = false.
Proof.
  split; [exact (proj1 (proj2 (validation_iff_all_binary [])) eq_refl)|].
  split.
  - apply (proj2 (proj1 (validation_iff_all_binary (lit "0110")))).
    all_binary.
  - split.
    + apply (proj1 (proj2 (proj2 (validation_iff_all_binary (lit "01a")))) 97%N);
        [vm_compute; tauto | discriminate | discriminate].
    + apply (proj2 (proj2 (proj2 (validation_iff_all_binary [49; 233; 48]%N))) 233%N);
        [vm_compute; tauto | vm_compute; discriminate].
Defined.

(** C4. For a string with a character outside ['0'] and ['1'] the whole
    output of the call is the one line of the error message, on standard
    output; no bits line and no indices line is printed, and the call
    returns.  Run from the entry point, that line is all that follows the
    prompt. *)
Theorem invalid_input_prints_only_error (s : str) :
  (exists c, In c s /\ ~ binary_char c) ->
  printed s = error_message ++ [newline] /\
  lines (printed s) = [error_message] /\
  (forall w,
      print_binary_with_one_indices_reversed s w =
      (inl tt, World (stdin w) (stdout w ++ error_message ++ [newline]))) /\
  (forall raw rest out,
      ~ In newline raw -> strip raw = s ->
      main (World (raw ++ newline :: rest) out) =
      (inl tt, World rest (out ++ prompt ++ error_message ++ [newline]))).
Proof.
  intros H. apply is_binary_string_false in H.
  rewrite (printed_invalid s H).
  split; [reflexivity|]. split; [vm_compute; reflexivity|].
  split; [intros w; apply run_invalid, H|].
  intros raw rest out Hn Hs.
  rewrite main_one_line, Hs, run_invalid by assumption.
  cbn [stdin stdout]. rewrite <- app_assoc. reflexivity.
Qed.

Lemma invalid_input_prints_only_error_witness :
  lines (printed (lit "abc")) =
  [lit "Error: Input must be a binary string containing only '0' and '1'."].
Proof.
  refine (proj1 (proj2 (invalid_input_prints_only_error (lit "abc") _))).
  exists 97%N. split; [vm_compute; tauto|].
  intros [E | E]; discriminate.
Defined.

(** C5. Centring in the field of 3 puts the odd space on the right: a
    value of one glyph gets one space before and one after, and a value of
    two glyphs (a reversed index of two digits, which takes N >= 11 and a
    ['1'] early enough) is its two digits and one space after them, none
    before. *)
Theorem centering_pads_right_when_odd :
  (forall (width : nat) (v : str),
      exists l r : nat,
        format_center (Z.of_nat width) v
        = List.repeat space l ++ v ++ List.repeat space r /\
        (l + r = width - List.length v)%nat /\ (r = l \/ r = S l)) /\
  (forall c, format_center 3 [c] = [space; c; space]) /\
  (forall a b, format_center 3 [a; b] = [a; b; space]) /\
  (forall x, (0 <= x <= 9)%Z ->
             format_int_center 3 x = [space; digit_char (Z.to_N x); space]) /\
  (forall x, (10 <= x <= 99)%Z ->
             format_int_center 3 x =
             [digit_char (Z.to_N x / 10); digit_char (Z.to_N x mod 10); space]) /\
  (forall (s : str) (i : nat),
      Forall binary_char s -> (List.length s <= 1000)%nat ->
      List.nth_error s i = Some 49%N ->
      (10 <= reversed_index (List.length s) i <= 99)%nat ->
      (11 <= List.length s)%nat /\
      exists line2,
        List.nth_error (lines (printed s)) 1 = Some line2 /\
        column i line2 =
        let r := N.of_nat (reversed_index (List.length s) i) in
        [digit_char (r / 10); digit_char (r mod 10); space]).
Proof.
  split.
  { intros width v.
    exists ((width - List.length v) / 2)%nat.
    exists ((width - List.length v) - (width - List.length v) / 2)%nat.
    split; [apply format_center_spec|].
    pose proof (Nat.div_mod_eq (width - List.length v) 2) as Hd.
    pose proof (Nat.mod_upper_bound (width - List.length v) 2 ltac:(lia)) as Hm.
    revert Hd Hm.
    generalize ((width - List.length v) mod 2)%nat.
    generalize ((width - List.length v) / 2)%nat.
    intros q r Hd Hm. lia. }
  split; [reflexivity|]. split; [reflexivity|].
  split.
  { intros x Hx. unfold format_int_center, int_to_str.
    destruct (x <? 0)%Z eqn:E; [apply Z.ltb_lt in E; lia|].
    rewrite digits_small by lia. reflexivity. }
  split.
  { intros x Hx. unfold format_int_center, int_to_str.
    destruct (x <? 0)%Z eqn:E; [apply Z.ltb_lt in E; lia|].
    rewrite digits_two by lia. reflexivity. }
  intros s i Hs Hn Hi Hr.
  assert (i < List.length s)%nat as Hlt
    by (apply nth_error_Some; rewrite Hi; discriminate).
  split; [unfold reversed_index in Hr; lia|].
  exists (indices_line_spec s). split.
  - rewrite lines_printed_valid by exact Hs. reflexivity.
  - rewrite column_indices_line by assumption.
    unfold index_column. rewrite Hi. cbn [N.eqb Pos.eqb].
    rewrite digits_two by lia. reflexivity.
Qed.

Lemma centering_pads_right_when_odd_witness :
  format_int_center 3 42 = lit "42 " /\
  format_int_center 3 7 = lit " 7 " /\
  exists line2,
    List.nth_error (lines (printed (lit "100000000001"))) 1 = Some line2 /\
    column 0 line2 = lit "11 ".
Proof.
  destruct centering_pads_right_when_odd as (_ & _ & _ & H1 & H2 & Hcol).
  split; [apply (H2 42%Z); lia|].
  split; [apply (H1 7%Z); lia|].
  apply (Hcol (lit "100000000001") 0%nat);
    [all_binary | vm_compute; lia | reflexivity | vm_compute; lia].
Defined.

(** C6. Input "0" gives the lines " 0 " and "   "; input "1" gives " 1 "
    and " 0 "; input "101" gives " 1  0  1 " and " 2     0 ". *)
Theorem concrete_runs :
  lines (printed (lit "0")) = [lit " 0 "; lit "   "] /\
  lines (printed (lit "1")) = [lit " 1 "; lit " 0 "] /\
  lines (printed (lit "101")) = [lit " 1  0  1 "; lit " 2     0 "].
Proof. repeat split; vm_compute; reflexivity. Qed.

(** C7. The empty string passes validation and both printed lines are
    empty. *)
Theorem empty_input_prints_two_empty_lines :
  is_binary_string [] = true /\
  printed [] = [newline; newline] /\
  lines (printed []) = [[]; []].
Proof. repeat split. Qed.

(** C8. The output is a function of the argument alone: whatever the
    process state, a call appends the same text to standard output,
    consumes no input and returns; a second call with the same argument
    appends that text once more, byte for byte. *)
Theorem rendering_depends_on_argument_only (s : str) :
  exists out : str,
    (forall w,
        print_binary_with_one_indices_reversed s w =
        (inl tt, World (stdin w) (stdout w ++ out))) /\
    (forall w,
        (print_binary_with_one_indices_reversed s ;;
         print_binary_with_one_indices_reversed s)%io w =
        (inl tt, World (stdin w) (stdout w ++ out ++ out))).
Proof.
  destruct (is_binary_string s) eqn:Hv.
  - exists (bits_line_spec s ++ newline :: indices_line_spec s ++ [newline]).
    assert (forall w,
               print_binary_with_one_indices_reversed s w =
               (inl tt,
                World (stdin w)
                  (stdout w ++
                   bits_line_spec s ++ newline :: indices_line_spec s ++ [newline])))
      as H1.
    { intros w. rewrite run_valid by exact Hv.
      rewrite <- !app_assoc. reflexivity. }
    split; [exact H1|].
    intros w. unfold IO.bind. rewrite H1, H1. cbn [stdin stdout].
    rewrite <- !app_assoc. reflexivity.
  - exists (error_message ++ [newline]).
    split; [intros w; apply run_invalid, Hv|].
    intros w. unfold IO.bind. rewrite !run_invalid by exact Hv.
    cbn [stdin stdout]. rewrite <- !app_assoc. reflexivity.
Qed.

(** C9. The entry point writes the prompt, reads exactly one line of
    standard input and strips the blanks at both ends before validating
    and rendering, so a line whose text between the blanks is a binary
    string is accepted and rendered. *)
Theorem main_reads_one_line_and_strips (raw rest out : str) :
  ~ In newline raw ->
  main (World (raw ++ newline :: rest) out) =
  print_binary_with_one_indices_reversed (strip raw)
    (World rest (out ++ prompt)) /\
  (forall pre core post,
      raw = pre ++ core ++ post ->
      Forall blank pre -> Forall binary_char core -> Forall blank post ->
      strip raw = core /\
      main (World (raw ++ newline :: rest) out) =
      (inl tt,
       World rest
         (out ++ prompt ++
          bits_line_spec core ++ newline :: indices_line_spec core ++ [newline]))).
Proof.
  intros Hn. split; [apply main_one_line, Hn|].
  intros pre core post -> Hpre Hcore Hpost.
  split; [apply strip_core; assumption|].
  rewrite main_one_line by exact Hn.
  rewrite strip_core by assumption.
  rewrite run_valid by (apply is_binary_string_Forall; exact Hcore).
  cbn [stdin stdout]. rewrite <- !app_assoc. reflexivity.
Qed.

Lemma main_reads_one_line_and_strips_witness :
  main (World (lit "  101 " ++ newline :: lit "next") []) =
  (inl tt,
   World (lit "next")
     (lit "Enter a binary string: " ++
      lit " 1  0  1 " ++ newline :: lit " 2     0 " ++ [newline])).
Proof.
  assert (~ In newline (lit "  101 ")) as Hn
    by (vm_compute; intros H; repeat destruct H as [H | H]; try discriminate H; exact H).
  assert (Forall blank (lit "  ")) as Hpre
    by (repeat constructor; discriminate).
  assert (Forall blank (lit " ")) as Hpost
    by (repeat constructor; discriminate).
  assert (Forall binary_char (lit "101")) as Hcore by all_binary.
  exact (proj2
           (proj2 (@main_reads_one_line_and_strips
                     (lit "  101 ") (lit "next") [] Hn)
              (lit "  ") (lit "101") (lit " ") eq_refl Hpre Hcore Hpost)).
Defined.

(** C10. For a valid string of length N <= 1000 the bits line and the
    indices line are both exactly 3*N long, hence aligned column by
    column; once N > 1000, a ['1'] whose reversed index is above 999 gets
    a field wider than 3 and the indices line is longer than 3*N. *)
Theorem lines_aligned_up_to_1000 (s : str) :
  Forall binary_char s ->
  exists line1 line2,
    lines (printed s) = [line1; line2] /\
    List.length line1 = (3 * List.length s)%nat /\
    ((List.length s <= 1000)%nat ->
     List.length line2 = (3 * List.length s)%nat) /\
    (forall i,
        List.nth_error s i = Some 49%N ->
        (999 < reversed_index (List.length s) i)%nat ->
        (1000 < List.length s)%nat /\
        (3 < List.length (index_column s i))%nat /\
        (3 * List.length s < List.length line2)%nat).
Proof.
  intros Hs.
  exists (bits_line_spec s), (indices_line_spec s).
  split; [apply lines_printed_valid, Hs|].
  split; [apply bits_line_length|].
  split; [apply indices_line_length|].
  intros i Hi Hr.
  assert (i < List.length s)%nat as Hlt
    by (apply nth_error_Some; rewrite Hi; discriminate).
  pose proof (index_column_length_wide s i Hi ltac:(lia)) as Hw.
  split; [unfold reversed_index in Hr; lia|].
  split; [lia|].
  unfold indices_line_spec.
  assert (3 * List.length (List.seq 0 (List.length s))
          < List.length
              (List.concat
                 (List.map (index_column s) (List.seq 0 (List.length s)))))%nat
    as Hgt.
  { apply concat_map_length_gt with (a := i).
    - intros k Hk. apply in_seq in Hk. apply index_column_length_ge. lia.
    - apply in_seq. lia.
    - lia. }
  rewrite length_seq in Hgt. exact Hgt.
Qed.

Lemma lines_aligned_up_to_1000_witness :
  (exists line1 line2,
      lines (printed (lit "1011")) = [line1; line2] /\
      List.length line1 = 12%nat /\ List.length line2 = 12%nat) /\
  (exists line1 line2,
      lines (printed (49%N :: List.repeat 48%N 1000)) = [line1; line2] /\
      List.length line1 = 3003%nat /\ (3003 < List.length line2)%nat).
Proof.
  split.
  - assert (Forall binary_char (lit "1011")) as H by all_binary.
    destruct (lines_aligned_up_to_1000 H) as (l1 & l2 & E & H1 & H2 & _).
    exists l1, l2. split; [exact E|].
    split; [exact H1 | apply H2; vm_compute; lia].
  - assert (Forall binary_char (49%N :: List.repeat 48%N 1000)) as H.
    { apply Forall_cons; [right; reflexivity|].
      apply Forall_forall. intros c Hc. left. exact (repeat_spec _ _ _ Hc). }
    destruct (lines_aligned_up_to_1000 H) as (l1 & l2 & E & H1 & _ & H3).
    exists l1, l2. split; [exact E|].
    cbn [List.length] in H1, H3. rewrite repeat_length in H1, H3.
    split; [exact H1|].
    apply (H3 0%nat); [reflexivity | vm_compute; lia].
Defined.

(** ** More on [str.strip] and the entry point *)

Section Stripping.

Lemma lstrip_app_whitespace pre x :
  Forall whitespace pre -> lstrip (pre ++ x) = lstrip x.
Proof.
  induction 1 as [|c pre Hc _ IH]; [reflexivity|].
  cbn [app lstrip]. unfold whitespace in Hc. rewrite Hc. exact IH.
Qed.

Lemma lstrip_split s :
  exists a, s = a ++ lstrip s /\ Forall whitespace a.
Proof.
  induction s as [|c s (a & Ha & Hsp)].
  - exists []. split; [reflexivity | constructor].
  - cbn [lstrip]. destruct (isspace c) eqn:E.
    + exists (c :: a). split; [cbn; f_equal; exact Ha|].
      constructor; assumption.
    + exists []. split; [reflexivity | constructor].
Qed.

Lemma lstrip_head s c u : lstrip s = c :: u -> isspace c = false.
Proof.
  induction s as [|d s IH]; cbn [lstrip]; [discriminate|].
  destruct (isspace d) eqn:E; [exact IH|].
  intros H. injection H as -> _. exact E.
Qed.

Lemma lstrip_idem s : lstrip (lstrip s) = lstrip s.
Proof.
  induction s as [|c s IH]; [reflexivity|].
  cbn [lstrip]. destruct (isspace c) eqn:E; [exact IH|].
  cbn [lstrip]. rewrite E. reflexivity.
Qed.

Lemma lstrip_fixed_app m y :
  m <> [] -> lstrip m = m -> lstrip (m ++ y) = m ++ y.
Proof.
  destruct m as [|c m]; [contradiction|]. intros _ H.
  apply lstrip_head in H. cbn [app lstrip]. rewrite H. reflexivity.
Qed.

Lemma lstrip_snoc_nonspace v c :
  isspace c = false -> exists v', lstrip (v ++ [c]) = v' ++ [c].
Proof.
  intros Hc. induction v as [|d v (v' & IH)].
  - exists []. cbn. rewrite Hc. reflexivity.
  - cbn [app lstrip]. destruct (isspace d).
    + exists v'. exact IH.
    + exists (d :: v). reflexivity.
Qed.

Lemma lstrip_binary s : Forall binary_char s -> lstrip s = s.
Proof.
  intros [|c s' Hc _]; [reflexivity|].
  cbn [lstrip]. rewrite (binary_char_not_space Hc). reflexivity.
Qed.

(** What [strip] returns starts and ends with a character it keeps. *)
Lemma strip_trimmed s :
  lstrip (strip s) = strip s /\ lstrip (rev (strip s)) = rev (strip s).
Proof.
  unfold strip, rstrip. split.
  - destruct (lstrip s) as [|c u] eqn:E; [reflexivity|].
    apply lstrip_head in E.
    cbn [rev]. destruct (lstrip_snoc_nonspace (rev u) c E) as (v' & ->).
    rewrite rev_app_distr. cbn [rev app lstrip]. rewrite E. reflexivity.
  - rewrite rev_involutive. apply lstrip_idem.
Qed.

(** [strip] removes whitespace at the two ends and nothing else. *)
Lemma strip_split s :
  exists a b, s = a ++ strip s ++ b /\ Forall whitespace a /\ Forall whitespace b.
Proof.
  destruct (lstrip_split s) as (a & Ha & Hsa).
  destruct (lstrip_split (rev (lstrip s))) as (p & Hp & Hsp).
  exists a, (rev p). split; [|split; [exact Hsa | apply Forall_rev, Hsp]].
  unfold strip, rstrip. rewrite <- rev_app_distr, <- Hp, rev_involutive.
  exact Ha.
Qed.

Lemma strip_sandwich x m y :
  Forall whitespace x -> Forall whitespace y ->
  lstrip m = m -> lstrip (rev m) = rev m ->
  strip (x ++ m ++ y) = m.
Proof.
  intros Hx Hy Hm Hr. unfold strip, rstrip.
  rewrite lstrip_app_whitespace by assumption.
  destruct m as [|c m].
  - cbn [app]. rewrite <- (app_nil_r y) at 1.
    rewrite lstrip_app_whitespace by assumption. reflexivity.
  - rewrite lstrip_fixed_app by (assumption || discriminate).
    rewrite rev_app_distr.
    rewrite lstrip_app_whitespace by (apply Forall_rev; assumption).
    rewrite Hr. apply rev_involutive.
Qed.

Lemma blank_whitespace l : Forall blank l -> Forall whitespace l.
Proof. apply Forall_impl. intros c [H _]. exact H. Qed.


(** The two kinds of output cannot be confused. *)
Lemma rendering_not_error core :
  bits_line_spec core ++ newline :: indices_line_spec core ++ [newline]
  <> error_message ++ [newline].
Proof.
  destruct core as [|c core]; intros H; vm_compute in H; discriminate H.
Qed.

End Stripping.

(** ** Further properties of the entry point *)




(** X2. A line gets the error message exactly when it is not a binary
    string with whitespace around it: whitespace inside the text, like
    any other foreign character, is not forgiven. *)
Theorem main_error_iff_not_padded_binary (raw rest out : str) :
  ~ In newline raw ->
  main (World (raw ++ newline :: rest) out) =
  (inl tt, World rest (out ++ prompt ++ error_message ++ [newline]))
  <->
  ~ (exists pre core post,
        raw = pre ++ core ++ post /\
        Forall whitespace pre /\ Forall binary_char core /\
        Forall whitespace post).
Proof.
  intros Hn. rewrite main_one_line by exact Hn. split.
  - intros Herr (pre & core & post & -> & Hpre & Hcore & Hpost).
    rewrite strip_sandwich in Herr;
      try assumption;
      try (apply lstrip_binary; try apply Forall_rev; assumption).
    rewrite run_valid in Herr by (apply is_binary_string_Forall; exact Hcore).
    cbn [stdin stdout] in Herr.
    apply (f_equal (fun r => stdout (snd r))) in Herr.
    cbn [snd stdout] in Herr. rewrite <- !app_assoc in Herr.
    apply app_inv_head in Herr. apply app_inv_head in Herr.
    exact (rendering_not_error core Herr).
  - intros Hno.
    destruct (is_binary_string (strip raw)) eqn:Hv.
    + exfalso. apply Hno.
      destruct (strip_split raw) as (a & b & Hs & Ha & Hb).
      exists a, (strip raw), b.
      repeat split; try assumption.
      apply is_binary_string_Forall, Hv.
    + rewrite run_invalid by exact Hv. cbn [stdin stdout].
      rewrite <- app_assoc. reflexivity.
Qed.

Lemma main_error_iff_not_padded_binary_witness :
  main (World (lit " 10 " ++ newline :: []) []) <>
  (inl tt, World [] ([] ++ prompt ++ error_message ++ [newline])).
Proof.
  assert (~ In newline (lit " 10 ")) as Hn
    by (vm_compute; intros H; repeat destruct H as [H | H]; try discriminate H; exact H).
  intros H.
  apply (proj1 (@main_error_iff_not_padded_binary (lit " 10 ") [] [] Hn)) in H.
  apply H. exists (lit " "), (lit "10"), (lit " ").
  split; [reflexivity|].
  split; [repeat constructor|]. split; [all_binary | repeat constructor].
Defined.

(** X3. Blanks around the line do not matter to the entry point: adding
    them leaves the stripped text, and so everything printed, the same;
    and stripping twice is stripping once. *)
Theorem main_ignores_surrounding_blanks (pre raw post rest out : str) :
  Forall blank pre -> Forall blank post -> ~ In newline raw ->
  strip (pre ++ raw ++ post) = strip raw /\
  strip (strip raw) = strip raw /\
  main (World ((pre ++ raw ++ post) ++ newline :: rest) out) =
  main (World (raw ++ newline :: rest) out).
Proof.
  intros Hpre Hpost Hn.
  destruct (strip_trimmed raw) as [Ht1 Ht2].
  assert (strip (pre ++ raw ++ post) = strip raw) as Hstrip.
  { destruct (strip_split raw) as (a & b & Hs & Ha & Hb).
    rewrite Hs at 1.
    replace (pre ++ (a ++ strip raw ++ b) ++ post)
      with ((pre ++ a) ++ strip raw ++ (b ++ post))
      by (rewrite <- !app_assoc; reflexivity).
    apply strip_sandwich; try assumption;
      apply Forall_app; split; try assumption;
      apply blank_whitespace; assumption. }
  split; [exact Hstrip|]. split.
  - rewrite <- (app_nil_r (strip raw)) at 1.
    apply (strip_sandwich (x := []) (y := [])); try assumption; constructor.
  - rewrite !main_one_line, Hstrip; [reflexivity | exact Hn |].
    intros Hin. apply in_app_or in Hin. destruct Hin as [Hin | Hin].
    + exact (blank_no_newline Hpre Hin).
    + apply in_app_or in Hin. destruct Hin as [Hin | Hin];
        [exact (Hn Hin) | exact (blank_no_newline Hpost Hin)].
Qed.

Lemma main_ignores_surrounding_blanks_witness :
  main (World ((lit "  " ++ lit "1 0" ++ lit " ") ++ newline :: []) []) =
  main (World (lit "1 0" ++ newline :: []) []).
Proof.
  assert (~ In newline (lit "1 0")) as Hn
    by (vm_compute; intros H; repeat destruct H as [H | H]; try discriminate H; exact H).
  assert (Forall blank (lit "  ")) as Hpre by (repeat constructor; discriminate).
  assert (Forall blank (lit " ")) as Hpost by (repeat constructor; discriminate).
  exact (proj2 (proj2 (@main_ignores_surrounding_blanks
                         (lit "  ") (lit "1 0") (lit " ") [] [] Hpre Hpost Hn))).
Defined.

(** ** Reading the two lines back *)

Section ReadingBack.

Lemma decode_bits_bits_line s : decode_bits (bits_line_spec s) = s.
Proof.
  unfold bits_line_spec. induction s as [|c s IH]; [reflexivity|].
  cbn [List.map List.concat]. rewrite spec_center_one.
  cbn [app decode_bits]. rewrite IH. reflexivity.
Qed.




Lemma index_column_zero (s : str) i :
  List.nth_error s i = Some 48%N -> index_column s i = List.repeat space 3.
Proof. intros E. unfold index_column. rewrite E. reflexivity. Qed.

Lemma index_column_one (s : str) i :
  List.nth_error s i = Some 49%N ->
  index_column s i =
  spec_center 3 (digits (N.of_nat (reversed_index (List.length s) i))).
Proof. intros E. unfold index_column. rewrite E. reflexivity. Qed.


Lemma binary_nth (s : str) i :
  Forall binary_char s -> (i < List.length s)%nat ->
  List.nth_error s i = Some 48%N \/ List.nth_error s i = Some 49%N.
Proof.
  intros Hs Hi.
  destruct (List.nth_error s i) as [c|] eqn:E;
    [|apply nth_error_None in E; lia].
  apply nth_error_In in E. rewrite Forall_forall in Hs.
  destruct (Hs c E) as [-> | ->]; [left | right]; reflexivity.
Qed.

(** A column is 3 wide unless it holds an index of four digits or more. *)
Lemma index_column_length_3_iff (s : str) i :
  Forall binary_char s -> (i < List.length s)%nat ->
  List.length (index_column s i) = 3%nat <->
  (List.nth_error s i = Some 49%N ->
   (reversed_index (List.length s) i < 1000)%nat).
Proof.
  intros Hs Hi. split.
  - intros Hlen E.
    destruct (Nat.lt_ge_cases (reversed_index (List.length s) i) 1000)
      as [H | H]; [exact H|].
    pose proof (index_column_length_wide s i E H). lia.
  - intros Hr. destruct (@binary_nth s i Hs Hi) as [E | E].
    + rewrite (index_column_zero s i E). reflexivity.
    + rewrite (index_column_one s i E), spec_center_length.
      pose proof (digits_length_le3
                    (n := N.of_nat (reversed_index (List.length s) i))
                    ltac:(specialize (Hr E); lia)).
      lia.
Qed.

(** The column under a position depends only on what lies to its right. *)
Lemma index_column_app (pre t : str) j :
  (j < List.length t)%nat ->
  index_column (pre ++ t) (List.length pre + j) = index_column t j.
Proof.
  intros Hj. unfold index_column, reversed_index.
  rewrite nth_error_app2 by lia.
  replace (List.length pre + j - List.length pre)%nat with j by lia.
  rewrite length_app.
  replace (List.length pre + List.length t - 1 - (List.length pre + j))%nat
    with (List.length t - 1 - j)%nat by lia.
  reflexivity.
Qed.

Lemma seq_from k len :
  List.seq k len = List.map (Nat.add k) (List.seq 0 len).
Proof.
  induction k as [|k IH].
  - rewrite map_id. reflexivity.
  - rewrite <- seq_shift, IH, map_map. reflexivity.
Qed.

Lemma indices_line_app (pre t : str) :
  indices_line_spec (pre ++ t) =
  List.concat (List.map (index_column (pre ++ t)) (List.seq 0 (List.length pre)))
  ++ indices_line_spec t.
Proof.
  unfold indices_line_spec at 1.
  rewrite length_app, seq_app, map_app, concat_app. f_equal.
  unfold indices_line_spec. f_equal. cbn [Nat.add].
  rewrite (seq_from (List.length pre)), map_map.
  apply map_ext_in. intros j Hj. apply in_seq in Hj.
  apply index_column_app. lia.
Qed.

Lemma bits_line_app (pre t : str) :
  bits_line_spec (pre ++ t) = bits_line_spec pre ++ bits_line_spec t.
Proof. unfold bits_line_spec. rewrite map_app. apply concat_app. Qed.

Lemma concat_blank_columns (A : Type) (f : A -> str) (l : list A) :
  (forall x, In x l -> f x = List.repeat space 3) ->
  List.concat (List.map f l) = List.repeat space (3 * List.length l).
Proof.
  induction l as [|a l IH]; intros H; [reflexivity|].
  cbn [List.map List.concat List.length].
  rewrite (H a (or_introl eq_refl)), IH
    by (intros x Hx; apply H; right; exact Hx).
  rewrite <- repeat_app. f_equal. lia.
Qed.

End ReadingBack.

(** ** Further properties of the printer *)

(** X4. The bits line reads back to the input: the middle character of
    its columns is the string that was passed.  Hence two different valid
    strings never print the same text. *)
Theorem bits_line_reads_back (s t : str) :
  Forall binary_char s -> Forall binary_char t ->
  (exists line1,
      List.nth_error (lines (printed s)) 0 = Some line1 /\
      decode_bits line1 = s) /\
  (printed s = printed t -> s = t).
Proof.
  intros Hs Ht. split.
  - exists (bits_line_spec s). split.
    + rewrite lines_printed_valid by exact Hs. reflexivity.
    + apply decode_bits_bits_line.
  - intros H. apply (f_equal lines) in H.
    rewrite !lines_printed_valid in H by assumption.
    injection H as H _. apply (f_equal decode_bits) in H.
    rewrite !decode_bits_bits_line in H. exact H.
Qed.

Lemma bits_line_reads_back_witness :
  exists line1,
    List.nth_error (lines (printed (lit "0110"))) 0 = Some line1 /\
    decode_bits line1 = lit "0110".
Proof.
  assert (Forall binary_char (lit "0110")) as H by all_binary.
  exact (proj1 (bits_line_reads_back H H)).
Defined.



(** X6. A valid run prints nothing but spaces, decimal digits and the two
    newlines, and on the bits line nothing but spaces, ['0'] and ['1']. *)
Theorem valid_output_alphabet (s : str) :
  Forall binary_char s ->
  (forall c, In c (printed s) ->
             c = newline \/ c = space \/ (48 <= c <= 57)%N) /\
  (forall line1 c,
      List.nth_error (lines (printed s)) 0 = Some line1 ->
      In c line1 -> c = space \/ binary_char c).
Proof.
  intros Hs.
  assert (forall c, In c (bits_line_spec s) -> c = space \/ binary_char c) as Hb.
  { intros c Hc. unfold bits_line_spec in Hc.
    apply in_concat in Hc. destruct Hc as (col & Hcol & Hc).
    apply in_map_iff in Hcol. destruct Hcol as (b & <- & Hb).
    apply spec_center_In in Hc. destruct Hc as [Hc | [<- | []]];
      [left; exact Hc | right].
    rewrite Forall_forall in Hs. exact (Hs b Hb). }
  split.
  - intros c Hc.
    rewrite printed_valid in Hc by (apply is_binary_string_Forall; exact Hs).
    apply in_app_or in Hc. destruct Hc as [Hc | [Hc | Hc]].
    + destruct (Hb c Hc) as [-> | [-> | ->]];
        [right; left; reflexivity | right; right; lia | right; right; lia].
    + left. symmetry. exact Hc.
    + apply in_app_or in Hc. destruct Hc as [Hc | [Hc | []]];
        [|left; symmetry; exact Hc].
      unfold indices_line_spec in Hc.
      apply in_concat in Hc. destruct Hc as (col & Hcol & Hc).
      apply in_map_iff in Hcol. destruct Hcol as (i & <- & _).
      right. exact (index_column_chars s i c Hc).
  - intros line1 c E. rewrite lines_printed_valid in E by exact Hs.
    injection E as <-. apply Hb.
Qed.

Lemma valid_output_alphabet_witness :
  Forall (fun c => c = newline \/ c = space \/ (48 <= c <= 57)%N)
    (printed (lit "1101")).
Proof.
  assert (Forall binary_char (lit "1101")) as H by all_binary.
  apply Forall_forall. exact (proj1 (valid_output_alphabet H)).
Defined.

(** X7. The indices line is never shorter than the bits line, and the two
    have the same length exactly when no ['1'] has a reversed index of
    1000 or more. *)
Theorem indices_line_length_iff (s : str) :
  Forall binary_char s ->
  exists line1 line2,
    lines (printed s) = [line1; line2] /\
    (List.length line1 <= List.length line2)%nat /\
    (List.length line2 = List.length line1 <->
     forall i, List.nth_error s i = Some 49%N ->
               (reversed_index (List.length s) i < 1000)%nat).
Proof.
  intros Hs. exists (bits_line_spec s), (indices_line_spec s).
  split; [apply lines_printed_valid, Hs|].
  rewrite bits_line_length.
  assert (forall k, In k (List.seq 0 (List.length s)) ->
                    (3 <= List.length (index_column s k))%nat) as Hge
    by (intros k Hk; apply in_seq in Hk; apply index_column_length_ge; lia).
  unfold indices_line_spec. split.
  - pose proof (@concat_map_length_ge _ (index_column s) 3 _ Hge) as H.
    rewrite length_seq in H. exact H.
  - split.
    + intros Hlen i E.
      destruct (Nat.lt_ge_cases (reversed_index (List.length s) i) 1000)
        as [H | H]; [exact H | exfalso].
      assert (i < List.length s)%nat as Hi
        by (apply nth_error_Some; rewrite E; discriminate).
      pose proof (index_column_length_wide s i E H) as Hw.
      pose proof (@concat_map_length_gt _ (index_column s) 3
                    (List.seq 0 (List.length s)) i Hge
                    ltac:(apply in_seq; lia) ltac:(lia)) as Hgt.
      rewrite length_seq in Hgt. lia.
    + intros Hall.
      rewrite concat_map_length_const with (k := 3%nat);
        [rewrite length_seq; reflexivity|].
      intros k Hk. apply in_seq in Hk.
      apply index_column_length_3_iff; [exact Hs | lia | apply Hall].
Qed.

Lemma indices_line_length_iff_witness :
  exists line1 line2,
    lines (printed (lit "1101")) = [line1; line2] /\
    (List.length line1 <= List.length line2)%nat.
Proof.
  assert (Forall binary_char (lit "1101")) as H by all_binary.
  destruct (indices_line_length_iff H) as (l1 & l2 & E & Hle & _).
  exists l1, l2. split; assumption.
Defined.

(** X8. Indices count from the right end, so what is printed for a string
    stays, column for column, at the end of what is printed for the string
    with more bits in front; bits of ['0'] in front add blank columns
    only. *)
Theorem rendering_of_suffix (pre t : str) :
  Forall binary_char pre -> Forall binary_char t ->
  exists head1 head2 line1 line2,
    lines (printed t) = [line1; line2] /\
    lines (printed (pre ++ t)) = [head1 ++ line1; head2 ++ line2] /\
    List.nth_error (lines (printed pre)) 0 = Some head1 /\
    (3 * List.length pre <= List.length head2)%nat /\
    (Forall (fun c => c = 48%N) pre ->
     head2 = List.repeat space (3 * List.length pre)).
Proof.
  intros Hpre Ht.
  exists (bits_line_spec pre).
  exists (List.concat
            (List.map (index_column (pre ++ t)) (List.seq 0 (List.length pre)))).
  exists (bits_line_spec t), (indices_line_spec t).
  split; [apply lines_printed_valid, Ht|].
  split.
  { rewrite lines_printed_valid by (apply Forall_app; split; assumption).
    rewrite bits_line_app, indices_line_app. reflexivity. }
  split; [rewrite lines_printed_valid by exact Hpre; reflexivity|].
  split.
  - pose proof (@concat_map_length_ge _ (index_column (pre ++ t)) 3
                  (List.seq 0 (List.length pre))) as Hge.
    rewrite length_seq in Hge. apply Hge.
    intros k Hk. apply in_seq in Hk.
    apply index_column_length_ge. rewrite length_app. lia.
  - intros Hz.
    rewrite concat_blank_columns; [rewrite length_seq; reflexivity|].
    intros k Hk. apply in_seq in Hk.
    apply index_column_zero.
    rewrite nth_error_app1 by lia.
    destruct (List.nth_error pre k) as [c|] eqn:E;
      [|apply nth_error_None in E; lia].
    apply nth_error_In in E. rewrite Forall_forall in Hz.
    rewrite (Hz c E). reflexivity.
Qed.

Lemma rendering_of_suffix_witness :
  exists line1 line2,
    lines (printed (lit "101")) = [line1; line2] /\
    lines (printed (lit "00" ++ lit "101")) =
    [lit " 0  0 " ++ line1; lit "      " ++ line2].
Proof.
  assert (Forall binary_char (lit "00")) as Hpre by all_binary.
  assert (Forall binary_char (lit "101")) as Ht by all_binary.
  destruct (rendering_of_suffix Hpre Ht)
    as (h1 & h2 & l1 & l2 & E1 & E2 & Eh & _ & Hz).
  exists l1, l2. split; [exact E1|].
  rewrite E2. injection Eh as <-.
  rewrite Hz by (repeat constructor). reflexivity.
Defined.

(** X9. A string passes validation exactly when its parts do, in any
    order; and a string that passes has no whitespace for [strip] to
    remove. *)
Theorem validation_of_parts (s t : str) :
  is_binary_string (s ++ t) = is_binary_string s && is_binary_string t /\
  is_binary_string (List.rev s) = is_binary_string s /\
  (is_binary_string s = true -> strip s = s).
Proof.
  rewrite !is_binary_string_forallb. split; [apply forallb_app|]. split.
  - induction s as [|c s IH]; [reflexivity|].
    cbn [List.rev forallb]. rewrite forallb_app, IH. cbn [forallb].
    rewrite andb_true_r. apply andb_comm.
  - intros Hv. rewrite <- is_binary_string_forallb in Hv.
    apply is_binary_string_Forall in Hv.
    rewrite <- (app_nil_r s) at 1.
    apply (strip_sandwich (x := []) (y := []));
      try constructor; apply lstrip_binary; try apply Forall_rev; exact Hv.
Qed.

Lemma validation_of_parts_witness : strip (lit "0110") = lit "0110".
Proof.
  exact (proj2 (proj2 (validation_of_parts (lit "0110") [])) eq_refl).
Defined.
